(** * Wind-turbine mock-data generator (lib/mockData): a shallow embedding

    The generator is the only algorithmic part of the dashboard: a
    piecewise power curve, a non-uniform wind-speed sweep with per-unit
    behaviour, a rolling factor simulator with deviation scores, and the
    parameters of two Gaussian curves.

    Conventions of the embedding.

    - A JavaScript number is idealised as an exact rational ([Q]): every
      finite double is a rational, and [+ - * /] are taken without rounding
      error.  Equality of numbers is [==] ([Qeq]).  [Infinity] and [NaN]
      are not represented; they can only arise here from a division by a
      zero-width normal range, and every statement that divides by the
      width assumes [min < max].
    - [Math.random()] and [Date.now()] are read from a host: the host fixes
      the sequence of values the successive calls return, and the program
      threads the number of calls made so far ([World]).
    - [Math.sin], [Math.exp], [Math.sqrt] and [Math.PI] are host functions
      as well; [Math.round], [Math.min], [Math.max], [Math.abs] and
      [Math.pow] with an integer exponent are exact.
    - Dates are kept as epoch milliseconds; [toISOString] and
      [toLocaleTimeString] are not modelled. *)

From Stdlib Require Import QArith Qround Qabs Qminmax Qpower Qreduction.
From Stdlib Require Import ZArith List String Bool Lia Lqa.
From Stdlib Require Import Sorting.Sorted Sorting.Permutation.
Import ListNotations.

Open Scope Q_scope.

(** ** JavaScript numbers *)

Definition Qlt_bool (x y : Q) : bool := negb (Qle_bool y x).

Notation "x <? y" := (Qlt_bool x y) : Q_scope.
Notation "x <=? y" := (Qle_bool x y) : Q_scope.
Notation "x >? y" := (Qlt_bool y x) : Q_scope.
Notation "x >=? y" := (Qle_bool y x) : Q_scope.

(** [Math.round]: nearest integer, ties towards +infinity. *)
Definition Math_round (x : Q) : Q := inject_Z (Qfloor (x + 0.5)).

Definition Math_min (x y : Q) : Q := Qmin x y.
Definition Math_max (x y : Q) : Q := Qmax x y.
Definition Math_abs (x : Q) : Q := Qabs x.
Definition Math_pow (x : Q) (n : Z) : Q := x ^ n.

(** A number used as a condition: [0] is falsy. *)
Definition truthy (x : Q) : bool := negb (Qeq_bool x 0).

(** [new Date(t)] keeps the integral part of [t]. *)
Definition Date_of (t : Q) : Z :=
  if t <? 0 then Qceiling t else Qfloor t.

(** ** The host: randomness, clock and transcendental functions *)

Class Host : Type := {
  random : nat -> Q;      (* value of the n-th call of Math.random() *)
  clock : nat -> Z;       (* value of the n-th call of Date.now() *)
  Math_sin : Q -> Q;
  Math_exp : Q -> Q;
  Math_sqrt : Q -> Q;
  Math_PI : Q
}.

Record World : Type := { draws : nat; ticks : nat }.

Definition IO (A : Type) : Type := World -> A * World.

Definition ret {A : Type} (a : A) : IO A := fun w => (a, w).

Definition bind {A B : Type} (m : IO A) (k : A -> IO B) : IO B :=
  fun w => let (a, w') := m w in k a w'.

Notation "x <- m ;; k" := (bind m (fun x => k))
  (at level 61, m at next level, right associativity).

Fixpoint mapM {A B : Type} (f : A -> IO B) (l : list A) : IO (list B) :=
  match l with
  | [] => ret []
  | x :: l' => y <- f x ;; ys <- mapM f l' ;; ret (y :: ys)
  end.

Definition Math_random `{Host} : IO Q :=
  fun w => (random (draws w), {| draws := S (draws w); ticks := ticks w |}).

Definition Date_now `{Host} : IO Z :=
  fun w => (clock (ticks w), {| draws := draws w; ticks := S (ticks w) |}).

(** The draws of [Math.random()] lie in [0, 1). *)
Definition unit_interval `{Host} : Prop := forall n, 0 <= random n /\ random n < 1.

(** ** Data model *)

Record PowerCurveDataPoint : Type := {
  windSpeed : Q;
  actualPower : option Q;
  minPower : Q;
  maxPower : Q;
  expectedPower : Q;
  timestamp : Z
}.

Record Range : Type := { min : Q; max : Q }.

Record HistoryPoint : Type := { time : Z; hvalue : Q }.

Record CorrelationFactor : Type := {
  id : string;
  name : string;
  value : Q;
  deviation : Q;
  deviationScore : Q;
  unit : string;
  normalRange : Range;
  history : list HistoryPoint
}.

Inductive Status : Type := normal | warning | critical.

Record UnitInfo : Type := {
  uid : Z;
  uname : string;
  currentYield : Q;
  status : Status
}.

Record BellCurveDataPoint : Type := { bvalue : Q; density : Q }.

Record DistributionData : Type := {
  reference : list BellCurveDataPoint;
  actual : list BellCurveDataPoint;
  referenceMean : Q;
  referenceStdDev : Q;
  actualMean : Q;
  actualStdDev : Q
}.

(** ** Power-curve model *)

Definition calculateExpectedPower (windSpeed : Q) : Q :=
  let cutInSpeed := 3 in
  let ratedSpeed := 12 in
  let cutOutSpeed := 25 in
  let ratedPower := 2000 in
  if windSpeed <? cutInSpeed then 0
  else if windSpeed >=? cutOutSpeed then 0
  else if windSpeed >=? ratedSpeed then ratedPower
  else
    let normalizedSpeed := (windSpeed - cutInSpeed) / (ratedSpeed - cutInSpeed) in
    let power := ratedPower * Math_pow normalizedSpeed 3 in
    power.

(** ** Power-curve samples *)

(** [for (let ws = start; ws <= limit; ws += step) windSpeeds.push(ws)].
    The counter is kept in lowest terms, which does not change its value. *)
Fixpoint sweep (fuel : nat) (ws limit step : Q) : list Q :=
  match fuel with
  | O => []
  | S fuel' =>
      if ws <=? limit then ws :: sweep fuel' (Qred (ws + step)) limit step
      else []
  end.

Definition windSpeeds : list Q :=
  sweep 1000 0 4 0.5 ++ sweep 1000 4.1 11 0.1 ++ sweep 1000 11.5 25 0.5.

(** The loop over [spikePositions]: the first position closer than 1.2 m/s
    sets [isSpike] and [spikeStrength] and breaks. *)
Fixpoint findSpike `{Host} (windSpeed : Q) (spikePositions : list Q) : bool * Q :=
  match spikePositions with
  | [] => (false, 0)
  | spikePos :: rest =>
      let distance := Math_abs (windSpeed - spikePos) in
      if distance <? 1.2 then
        let normalizedDist := distance / 1.2 in
        (true, Math_exp (- (8) * normalizedDist * normalizedDist))
      else findSpike windSpeed rest
  end.

Section PowerCurve.
Context `{Host}.
Variables (unitId : Z) (numPoints : Q) (now : Z).

Definition highWindPower (expectedPower : Q) : IO Q :=
  r <- Math_random ;;
  let actualPower := expectedPower * (0.98 + r * 0.02) in
  ret (Math_min actualPower (expectedPower * 1.0)).

Definition warningRampPower (windSpeed expectedPower minPower maxPower : Q) : IO Q :=
  let rampProgress := (windSpeed - 4) / 7 in
  let dipCycle := Math_sin (rampProgress * Math_PI) in
  let baseEfficiency := 0.75 + (0.20 * (1 - dipCycle)) in
  r <- Math_random ;;
  let randomVariation := r * 0.03 in
  let actualPower := expectedPower * (baseEfficiency + randomVariation) in
  let actualPower := Math_min actualPower (maxPower * 0.98) in
  let actualPower :=
    if dipCycle >? 0.5 then Math_min actualPower (minPower * 0.88)
    else actualPower in
  let actualPower :=
    if rampProgress >? 0.7 then
      let recoveryFactor := (rampProgress - 0.7) / 0.3 in
      Math_max actualPower (expectedPower * (0.80 + recoveryFactor * 0.15))
    else actualPower in
  ret actualPower.

Definition normalRampPower (windSpeed expectedPower minPower maxPower : Q) : IO Q :=
  let rampProgress := (windSpeed - 4) / 7 in
  let dipCycle := Math_sin (rampProgress * Math_PI) in
  let baseEfficiency := 0.88 + (0.07 * (1 - dipCycle)) in
  r <- Math_random ;;
  let randomVariation := r * 0.03 in
  let actualPower := expectedPower * (baseEfficiency + randomVariation) in
  let actualPower := Math_min actualPower (maxPower * 0.98) in
  let actualPower :=
    if dipCycle >? 0.5 then Math_min actualPower (minPower * 1.02)
    else actualPower in
  ret actualPower.

Definition lowWindPower (expectedPower : Q) : IO Q :=
  r <- Math_random ;;
  ret (expectedPower * (0.85 + r * 0.10)).

Definition criticalPower (windSpeed minPower : Q) : IO Q :=
  let baselineLow := minPower * 0.45 in
  let spikePositions := [6.5; 10; 13.5; 17; 20.5] in
  let (isSpike, spikeStrength) := findSpike windSpeed spikePositions in
  if isSpike then
    r <- Math_random ;;
    let maxSpikeHeight := minPower * (0.7 + r * 0.15) in
    ret (baselineLow + (maxSpikeHeight - baselineLow) * spikeStrength)
  else
    r <- Math_random ;;
    ret (baselineLow * (0.85 + r * 0.3)).

(** The body of [windSpeeds.forEach]. *)
Definition powerCurvePoint (windSpeed : Q) : IO PowerCurveDataPoint :=
  let isCriticalUnit := (unitId =? 6)%Z in
  let expectedPower := calculateExpectedPower windSpeed in
  let timestamp := Date_of (inject_Z now - (numPoints - (windSpeed * 4)) * 5 * 60 * 1000) in
  let minPower := expectedPower * 0.85 in
  let maxPower := expectedPower * 1.05 in
  actualPower <-
    (if (windSpeed >=? 3) && (windSpeed <=? 25) then
       let isWarningUnit := (unitId =? 4)%Z in
       if negb isCriticalUnit then
         if windSpeed >? 11 then
           p <- highWindPower expectedPower ;; ret (Some p)
         else if (windSpeed >=? 4) && (windSpeed <=? 11) then
           if isWarningUnit then
             p <- warningRampPower windSpeed expectedPower minPower maxPower ;;
             ret (Some p)
           else
             p <- normalRampPower windSpeed expectedPower minPower maxPower ;;
             ret (Some p)
         else
           p <- lowWindPower expectedPower ;; ret (Some p)
       else
         p <- criticalPower windSpeed minPower ;; ret (Some p)
     else ret None) ;;
  ret {| windSpeed := Math_round (windSpeed * 100) / 100;
         actualPower :=
           match actualPower with
           | Some p => if truthy p then Some (Math_round (p * 10) / 10) else None
           | None => None
           end;
         minPower := Math_round (minPower * 10) / 10;
         maxPower := Math_round (maxPower * 10) / 10;
         expectedPower := Math_round (expectedPower * 10) / 10;
         timestamp := timestamp |}.
End PowerCurve.

Definition generatePowerCurveData `{Host} (unitId : Z) (numPoints : Q)
  : IO (list PowerCurveDataPoint) :=
  now <- Date_now ;;
  mapM (powerCurvePoint unitId numPoints now) windSpeeds.

(** ** Unit registry *)

Definition generateUnitsInfo : list UnitInfo :=
  [ {| uid := 1; uname := "Unit 1"; currentYield := 97.2; status := normal |};
    {| uid := 2; uname := "Unit 2"; currentYield := 98.5; status := normal |};
    {| uid := 3; uname := "Unit 3"; currentYield := 95.8; status := normal |};
    {| uid := 4; uname := "Unit 4"; currentYield := 91.3; status := warning |};
    {| uid := 5; uname := "Unit 5"; currentYield := 96.7; status := normal |};
    {| uid := 6; uname := "Unit 6"; currentYield := 80.0; status := critical |} ].

Definition registered (unitId : Z) : Prop := In unitId (map uid generateUnitsInfo).

(** ** Time-series factor simulator *)

Open Scope string_scope.
Open Scope Q_scope.

(** One historical value of a factor ([switch (factorId)] of
    [generateInitialHistory]). *)
Definition initialValue `{Host} (factorId : string) (isCritical : bool) : IO Q :=
  if isCritical then
    r <- Math_random ;;
    let isAnomaly := r >? 0.7 in
    if factorId =? "pitch" then
      r' <- Math_random ;; ret (if isAnomaly then 20 + r' * 8 else 12 + r' * 8)
    else if factorId =? "rotor" then
      r' <- Math_random ;; ret (if isAnomaly then 6 + r' * 3 else 11 + r' * 4)
    else if factorId =? "generator" then
      r' <- Math_random ;; ret (85 + r' * 10)
    else if factorId =? "windSpeed" then
      r' <- Math_random ;; ret (if isAnomaly then 5 + r' * 2 else 6 + r' * 3)
    else ret 0
  else
    if factorId =? "pitch" then r <- Math_random ;; ret (2 + r * 3)
    else if factorId =? "rotor" then r <- Math_random ;; ret (14 + r * 4)
    else if factorId =? "generator" then r <- Math_random ;; ret (68 + r * 6)
    else if factorId =? "windSpeed" then r <- Math_random ;; ret (9 + r * 4)
    else ret 0.

Definition generateInitialHistory `{Host} (factorId : string) (isCritical : bool)
  (numPoints : nat) : IO (list HistoryPoint) :=
  now <- Date_now ;;
  mapM (fun i : nat =>
          let timestamp := (now - (Z.of_nat numPoints - Z.of_nat i) * 5000)%Z in
          value <- initialValue factorId isCritical ;;
          ret {| time := timestamp; hvalue := Math_round (value * 10) / 10 |})
       (seq 0 numPoints).

(** Distance of [value] outside [normalRange], as both generators compute it. *)
Definition rangeDeviation (value : Q) (normalRange : Range) : Q :=
  let min := min normalRange in
  let max := max normalRange in
  if value <? min then min - value
  else if value >? max then value - max
  else 0.

Definition calculateInitialDeviation (value : Q) (normalRange : Range) : Q * Q :=
  let deviation := rangeDeviation value normalRange in
  let rangeWidth := max normalRange - min normalRange in
  let deviationScore := Math_min 100 ((Math_abs deviation / rangeWidth) * 100) in
  (Math_round (deviation * 10) / 10, Math_round (deviationScore * 10) / 10).

(** The literal table of [initializeCorrelationFactors]:
    id, name, value, unit, normalRange. *)
Definition factorTable (isCritical : bool) : list (string * string * Q * string * Range) :=
  [ ("pitch", "Pitch Angle", if isCritical then 18 else 3, "°",
     {| min := 0; max := 5 |});
    ("rotor", "Rotor Speed", if isCritical then 9 else 16, "RPM",
     {| min := 14; max := 18 |});
    ("generator", "Generator Temp", if isCritical then 87 else 72, "°C",
     {| min := 65; max := 75 |});
    ("windSpeed", "Wind Speed", if isCritical then 6 else 10, "m/s",
     {| min := 8; max := 14 |}) ].

Definition initializeCorrelationFactors `{Host} (unitId : Z) : IO (list CorrelationFactor) :=
  let isCritical := (unitId =? 6)%Z in
  mapM (fun factor : string * string * Q * string * Range =>
          let '(fid, fname, fvalue, funit, frange) := factor in
          let (deviation, deviationScore) := calculateInitialDeviation fvalue frange in
          history <- generateInitialHistory fid isCritical 30 ;;
          ret {| id := fid; name := fname; value := fvalue;
                 deviation := deviation; deviationScore := deviationScore;
                 unit := funit; normalRange := frange; history := history |})
       (factorTable isCritical).

(** The value drawn for one factor by [generateNextDataPoint]. *)
Definition nextValue `{Host} (isCritical : bool) (factor : CorrelationFactor) : IO Q :=
  if isCritical then
    r <- Math_random ;;
    let isAnomaly := r >? 0.7 in
    if id factor =? "pitch" then
      r' <- Math_random ;; ret (if isAnomaly then 20 + r' * 8 else 12 + r' * 8)
    else if id factor =? "rotor" then
      r' <- Math_random ;; ret (if isAnomaly then 6 + r' * 3 else 11 + r' * 4)
    else if id factor =? "generator" then
      r' <- Math_random ;; ret (85 + r' * 10)
    else if id factor =? "windSpeed" then
      r' <- Math_random ;; ret (if isAnomaly then 5 + r' * 2 else 6 + r' * 3)
    else ret (value factor)
  else
    if id factor =? "pitch" then r <- Math_random ;; ret (2 + r * 3)
    else if id factor =? "rotor" then r <- Math_random ;; ret (14 + r * 4)
    else if id factor =? "generator" then r <- Math_random ;; ret (68 + r * 6)
    else if id factor =? "windSpeed" then r <- Math_random ;; ret (9 + r * 4)
    else ret (value factor).

(** [array.slice(-n)]: the last [n] elements. *)
Definition slice_last {A : Type} (n : nat) (l : list A) : list A :=
  skipn (List.length l - n) l.

(** The body of [currentFactors.map] in [generateNextDataPoint]. *)
Definition nextFactor `{Host} (isCritical : bool) (timestamp : Z)
  (factor : CorrelationFactor) : IO CorrelationFactor :=
  newValue <- nextValue isCritical factor ;;
  let deviation := rangeDeviation newValue (normalRange factor) in
  let rangeWidth := max (normalRange factor) - min (normalRange factor) in
  let deviationScore := Math_min 100 ((Math_abs deviation / rangeWidth) * 100) in
  let newHistory :=
    slice_last 20 (history factor ++ [ {| time := timestamp; hvalue := newValue |} ])%list in
  ret {| id := id factor; name := name factor;
         value := Math_round (newValue * 10) / 10;
         deviation := Math_round (deviation * 10) / 10;
         deviationScore := Math_round (deviationScore * 10) / 10;
         unit := unit factor; normalRange := normalRange factor;
         history := newHistory |}.

Definition generateNextDataPoint `{Host} (unitId : Z) (currentTime : Q)
  (currentFactors : list CorrelationFactor) : IO (list CorrelationFactor) :=
  let isCritical := (unitId =? 6)%Z in
  timestamp <- Date_now ;;
  mapM (nextFactor isCritical timestamp) currentFactors.

(** [Array.prototype.sort] with a comparator: a stable sort; [a] is placed
    before [b] when [compareFn a b < 0] and the order of elements that
    compare equal is kept. *)
Fixpoint sort_insert {A : Type} (compareFn : A -> A -> Q) (x : A) (l : list A) : list A :=
  match l with
  | [] => [x]
  | y :: l' =>
      if compareFn x y >? 0 then y :: sort_insert compareFn x l'
      else x :: y :: l'
  end.

Definition Array_sort {A : Type} (compareFn : A -> A -> Q) (l : list A) : list A :=
  fold_right (sort_insert compareFn) [] l.

(** The comparator [(a, b) => b.deviationScore - a.deviationScore]. *)
Definition compareDeviation (a b : CorrelationFactor) : Q :=
  deviationScore b - deviationScore a.

Definition sortFactorsByDeviation (factors : list CorrelationFactor)
  : list CorrelationFactor :=
  Array_sort compareDeviation factors.

(** The page's interval callback: what is stored after every tick. *)
Definition tick `{Host} (selectedUnitId : Z) (currentTime : Q)
  (prevFactors : list CorrelationFactor) : IO (list CorrelationFactor) :=
  updatedFactors <- generateNextDataPoint selectedUnitId currentTime prevFactors ;;
  ret (sortFactorsByDeviation updatedFactors).

(** ** Distribution synthesizer *)

Definition generateBellCurveData `{Host} (mean stdDev rangeMin rangeMax : Q)
  (numPoints : nat) : list BellCurveDataPoint :=
  let step := (rangeMax - rangeMin) / inject_Z (Z.of_nat numPoints) in
  map (fun i : nat =>
         let x := rangeMin + inject_Z (Z.of_nat i) * step in
         let exponent := - Math_pow (x - mean) 2 / (2 * Math_pow stdDev 2) in
         let coefficient := 1 / (stdDev * Math_sqrt (2 * Math_PI)) in
         let density := coefficient * Math_exp exponent in
         {| bvalue := Math_round (x * 100) / 100;
            density := Math_round (density * 1000) / 1000 |})
      (seq 0 (S numPoints)).

Definition generateDistributionData `{Host} (factor : CorrelationFactor) (unitId : Z)
  : IO DistributionData :=
  let isCritical := (unitId =? 6)%Z in
  let isWarning := (unitId =? 4)%Z in
  let range := normalRange factor in
  let referenceMean := (min range + max range) / 2 in
  let referenceStdDev := (max range - min range) / 6 in
  params <-
    (if isCritical then
       let shiftAmount := (max range - min range) * 0.4 in
       ret (if value factor <? referenceMean then referenceMean - shiftAmount
            else referenceMean + shiftAmount,
            referenceStdDev * 2.0)
     else if isWarning then
       let shiftAmount := (max range - min range) * 0.25 in
       ret (if value factor <? referenceMean then referenceMean - shiftAmount
            else referenceMean + shiftAmount,
            referenceStdDev * 1.4)
     else
       r <- Math_random ;;
       ret (referenceMean + (r - 0.5) * referenceStdDev * 0.5,
            referenceStdDev * 1.1)) ;;
  let (actualMean, actualStdDev) := params : Q * Q in
  let rangeWidth := max range - min range in
  let rangeMin := min range - rangeWidth * 0.5 in
  let rangeMax := max range + rangeWidth * 0.5 in
  let reference := generateBellCurveData referenceMean referenceStdDev rangeMin rangeMax 100 in
  let actual := generateBellCurveData actualMean actualStdDev rangeMin rangeMax 100 in
  ret {| reference := reference;
         actual := actual;
         referenceMean := Math_round (referenceMean * 100) / 100;
         referenceStdDev := Math_round (referenceStdDev * 100) / 100;
         actualMean := Math_round (actualMean * 100) / 100;
         actualStdDev := Math_round (actualStdDev * 100) / 100 |}.

(** ** A concrete host for test runs

    Every draw is 1/2, the clock stands at 0, and the transcendental
    functions are coarse rational stand-ins (a clamped cubic for the sine,
    [1 / (1 - x)] for the exponential of a non-positive argument). *)
Definition sin_approx (x : Q) : Q :=
  Math_max (- (1)) (Math_min 1 (x - x * x * x / 6)).

Definition exp_approx (x : Q) : Q :=
  if x <=? 0 then 1 / (1 - x) else 1 + x.

Definition constHost (r : Q) : Host :=
  {| random := fun _ => r; clock := fun _ => 0%Z;
     Math_sin := sin_approx; Math_exp := exp_approx;
     Math_sqrt := fun x => x; Math_PI := 355 / 113 |}.

(** A host replaying a finite script of draws (0 afterwards). *)
Definition scriptHost (script : list Q) : Host :=
  {| random := fun n => nth n script 0; clock := fun _ => 0%Z;
     Math_sin := sin_approx; Math_exp := exp_approx;
     Math_sqrt := fun x => x; Math_PI := 355 / 113 |}.

Definition world0 : World := {| draws := 0; ticks := 0 |}.

(** ** Vocabulary of the statements *)

(** Rounding to a fixed number of decimals, [Math.round(x * k) / k]. *)
Definition roundTo (k : Q) (x : Q) : Q := Math_round (x * k) / k.

(** The cubic ramp of the power curve between cut-in and rated speed. *)
Definition cubicRamp (w : Q) : Q := 2000 * ((w - 3) / 9) ^ 3.

(** The fields of a sample that do not depend on the draws. *)
Definition baseline (p : PowerCurveDataPoint) : Q * Q * Q * Q :=
  (windSpeed p, minPower p, maxPower p, expectedPower p).

Definition baselineAt (ws : Q) : Q * Q * Q * Q :=
  (Math_round (ws * 100) / 100,
   Math_round (calculateExpectedPower ws * 0.85 * 10) / 10,
   Math_round (calculateExpectedPower ws * 1.05 * 10) / 10,
   Math_round (calculateExpectedPower ws * 10) / 10).

(** The i-th sample of a sweep started in the initial world. *)
Definition sampleAt (H : Host) (unitId : Z) (i : nat) : option PowerCurveDataPoint :=
  nth_error (fst (generatePowerCurveData unitId 200 world0)) i.

(** Descending order of [deviationScore]. *)
Definition byDeviationDesc (a b : CorrelationFactor) : Prop :=
  deviationScore b <= deviationScore a.

Definition sortedDesc (l : list CorrelationFactor) : Prop :=
  StronglySorted byDeviationDesc l.

Fixpoint sortedDescb (l : list CorrelationFactor) : bool :=
  match l with
  | [] => true
  | a :: l' =>
      forallb (fun b => deviationScore b <=? deviationScore a) l' && sortedDescb l'
  end.

(** Normal ranges. *)
Definition within (r : Range) (v : Q) : Prop := min r <= v /\ v <= max r.

Definition width (r : Range) : Q := max r - min r.

Definition midpoint (r : Range) : Q := (min r + max r) / 2.

(** How far [v] lies outside [r] (0 inside). *)
Definition distanceOutside (r : Range) (v : Q) : Q :=
  Qmax 0 (Qmax (min r - v) (v - max r)).

(** The deviation score before it is rounded to one decimal. *)
Definition rawScore (r : Range) (v : Q) : Q :=
  Qmin 100 (distanceOutside r v / width r * 100).

(** The four factors of the table and their configured ranges. *)
Definition knownFactor (fid : string) : Prop :=
  In fid ["pitch"; "rotor"; "generator"; "windSpeed"].

Definition configuredRange (fid : string) : option Range :=
  option_map (fun row : string * string * Q * string * Range => snd row)
    (find (fun row : string * string * Q * string * Range =>
             let '(rid, _, _, _, _) := row in rid =? fid)
          (factorTable false)).

Definition configured (f : CorrelationFactor) : Prop :=
  configuredRange (id f) = Some (normalRange f).

(** A unit the generators treat exactly like the nominal unit 1. *)
Definition behavesAsNominal (H : Host) (unitId : Z) : Prop :=
  (forall numPoints w,
     generatePowerCurveData unitId numPoints w = generatePowerCurveData 1 numPoints w) /\
  (forall w, initializeCorrelationFactors unitId w = initializeCorrelationFactors 1 w) /\
  (forall currentTime factors w,
     generateNextDataPoint unitId currentTime factors w =
     generateNextDataPoint 1 currentTime factors w) /\
  (forall factor w,
     generateDistributionData factor unitId w = generateDistributionData factor 1 w).

(** ** Concrete inputs *)

Definition criticalStart (H : Host) : list CorrelationFactor :=
  fst (@initializeCorrelationFactors H 6 world0).

Definition nominalStart (H : Host) : list CorrelationFactor :=
  fst (@initializeCorrelationFactors H 1 world0).

(** Draws for one tick of unit 6: pitch takes the first two, rotor the
    next two (no anomaly, then 0.7422, which gives 13.9688 RPM). *)
Definition anomalyScript : list Q := [0.5; 0.5; 0.5; 0.7422].

(** A pitch factor carrying a range that is not the one of the table. *)
Definition misrangedPitch : CorrelationFactor :=
  {| id := "pitch"; name := "Pitch Angle"; value := 3; deviation := 0;
     deviationScore := 0; unit := "°";
     normalRange := {| min := 10; max := 20 |}; history := [] |}.

(** The generator-temperature factor of a critical unit. *)
Definition generatorScenario : CorrelationFactor :=
  {| id := "generator"; name := "Generator Temp"; value := 87; deviation := 12;
     deviationScore := 100; unit := "°C";
     normalRange := {| min := 65; max := 75 |}; history := [] |}.

(** ** The theoretical curve *)

(** [for (let windSpeed = 0; windSpeed <= 25; windSpeed += 0.2)]: the
    expected power is returned unrounded and no actual power is set. *)
Definition generateTheoreticalPowerCurve `{Host} : IO (list PowerCurveDataPoint) :=
  now <- Date_now ;;
  ret (map (fun windSpeed : Q =>
              let expectedPower := calculateExpectedPower windSpeed in
              {| windSpeed := Math_round (windSpeed * 10) / 10;
                 actualPower := None;
                 minPower := Math_round (expectedPower * 0.85 * 10) / 10;
                 maxPower := Math_round (expectedPower * 1.05 * 10) / 10;
                 expectedPower := expectedPower;
                 timestamp := now |})
           (sweep 1000 0 25 0.2)).

(** ** Time series of the four signals *)

Module TimeSeries.

Record TimeSeriesDataPoint : Type := {
  timestamp : Z;
  time : nat;
  rotorSpeed : Q;
  pitchAngle : Q;
  generatorTemp : Q;
  windSpeed : Q
}.

End TimeSeries.

(** The body of the loop of [generateTimeSeriesData]. *)
Definition timeSeriesPoint `{Host} (unitId : Z) (now : Z) (totalPoints : Q) (i : nat)
  : IO TimeSeries.TimeSeriesDataPoint :=
  let isCriticalUnit := (unitId =? 6)%Z in
  let timestamp :=
    Date_of (inject_Z now - (totalPoints - inject_Z (Z.of_nat i)) * 5 * 60 * 1000) in
  signals <-
    (if isCriticalUnit then
       r1 <- Math_random ;; r2 <- Math_random ;; r3 <- Math_random ;; r4 <- Math_random ;;
       ret (8 + r1 * 3, 15 + r2 * 10, 85 + r3 * 5, 6 + r4 * 3)
     else if (unitId =? 4)%Z then
       r1 <- Math_random ;; r2 <- Math_random ;; r3 <- Math_random ;; r4 <- Math_random ;;
       ret (14 + r1 * 3, 5 + r2 * 5, 78 + r3 * 4, 8 + r4 * 4)
     else
       r1 <- Math_random ;; r2 <- Math_random ;; r3 <- Math_random ;; r4 <- Math_random ;;
       ret (16 + r1 * 4, 2 + r2 * 3, 70 + r3 * 5, 8 + r4 * 6)) ;;
  let '(rotorSpeed, pitchAngle, generatorTemp, windSpeed) := signals : Q * Q * Q * Q in
  ret {| TimeSeries.timestamp := timestamp;
         TimeSeries.time := i;
         TimeSeries.rotorSpeed := Math_round (rotorSpeed * 10) / 10;
         TimeSeries.pitchAngle := Math_round (pitchAngle * 10) / 10;
         TimeSeries.generatorTemp := Math_round (generatorTemp * 10) / 10;
         TimeSeries.windSpeed := Math_round (windSpeed * 10) / 10 |}.

(** [for (let i = 0; i < totalPoints; i++)] runs for the naturals below
    [totalPoints], that is [ceil(totalPoints)] times (none when it is not
    positive). *)
Definition generateTimeSeriesData `{Host} (unitId : Z) (hours : Q)
  : IO (list TimeSeries.TimeSeriesDataPoint) :=
  now <- Date_now ;;
  let pointsPerHour := 12 in
  let totalPoints := hours * pointsPerHour in
  mapM (timeSeriesPoint unitId now totalPoints) (seq 0 (Z.to_nat (Qceiling totalPoints))).

(** ** Colours *)

Definition getStatusColor (status : Status) : string :=
  match status with
  | critical => "rgb(239, 68, 68)"
  | warning => "rgb(251, 191, 36)"
  | normal => "rgb(34, 197, 94)"
  end.

(** [getColor], [getDomain] and the two flags of a factor card
    (CorrelationFactorsChart). *)
Definition getColor (deviationScore : Q) : string :=
  if deviationScore >? 50 then "#ef4444"
  else if deviationScore >? 25 then "#f59e0b"
  else "#10b981".

Definition getDomain (id : string) : Q * Q :=
  if id =? "pitch" then (0, 30)
  else if id =? "rotor" then (0, 25)
  else if id =? "generator" then (60, 100)
  else if id =? "windSpeed" then (0, 20)
  else (0, 100).

Definition cardIsCritical (factor : CorrelationFactor) : bool :=
  deviationScore factor >? 50.

Definition cardIsWarning (factor : CorrelationFactor) : bool :=
  (deviationScore factor >? 25) && (deviationScore factor <=? 50).

(** ** The page *)

(** The factors the page holds after [n] runs of its interval callback:
    it starts from [initializeCorrelationFactors] and every run stores
    [tick] of what it held, with [currentTime] counting the runs. *)
Fixpoint pageFactors `{Host} (selectedUnitId : Z) (n : nat) : IO (list CorrelationFactor) :=
  match n with
  | O => initializeCorrelationFactors selectedUnitId
  | S n' =>
      prevFactors <- pageFactors selectedUnitId n' ;;
      tick selectedUnitId (inject_Z (Z.of_nat n')) prevFactors
  end.

(** ** Vocabulary of the further statements *)

(** The class the generators give a unit id by their tests
    [unitId === 6] and [unitId === 4]. *)
Definition unitClass (unitId : Z) : Status :=
  if (unitId =? 6)%Z then critical
  else if (unitId =? 4)%Z then warning
  else normal.

(** A host whose draws lie in [0, 1), whose sine is at most 1 and whose
    exponential is positive and at most 1 on non-positive arguments. *)
Definition honest (H : Host) : Prop :=
  unit_interval /\
  (forall x, Math_sin x <= 1) /\
  (forall x, 0 < Math_exp x) /\
  (forall x, x <= 0 -> Math_exp x <= 1).

(** The baseline band of a sample. *)
Definition insideBand (s : PowerCurveDataPoint) (p : Q) : Prop :=
  minPower s <= p /\ p <= maxPower s.

Definition ascending (l : list Q) : Prop := StronglySorted Qlt l.

Definition ascendingZ (l : list Z) : Prop := StronglySorted Z.lt l.

Fixpoint ascendingb (l : list Q) : bool :=
  match l with
  | [] => true
  | a :: l' => forallb (fun b => a <? b) l' && ascendingb l'
  end.

(** Draws and clock reads made by a run started in [w]. *)
Definition drawsMade {A : Type} (m : IO A) (w : World) : nat :=
  draws (snd (m w)) - draws w.

Definition clockReads {A : Type} (m : IO A) (w : World) : nat :=
  ticks (snd (m w)) - ticks w.

Definition score100 (f : CorrelationFactor) : bool := Qeq_bool (deviationScore f) 100.

(** * Properties *)

(** ** Comparisons and arithmetic on numbers *)

Lemma Qlt_bool_iff (x y : Q) : (x <? y) = true <-> x < y.
Proof.
  unfold Qlt_bool. rewrite negb_true_iff.
  split; intro Hxy.
  - apply Qnot_le_lt. intro Hle. apply Qle_bool_iff in Hle. congruence.
  - destruct (Qle_bool y x) eqn:E; [|reflexivity].
    apply Qle_bool_iff in E. lra.
Qed.

Lemma Qlt_bool_false (x y : Q) : (x <? y) = false <-> y <= x.
Proof.
  unfold Qlt_bool. rewrite negb_false_iff. apply Qle_bool_iff.
Qed.

Lemma Qle_bool_false (x y : Q) : (x <=? y) = false <-> y < x.
Proof.
  rewrite <- Qlt_bool_iff. unfold Qlt_bool.
  destruct (Qle_bool x y); simpl; intuition congruence.
Qed.

(** Turns the boolean comparisons among the hypotheses into propositions. *)
Ltac qbool :=
  repeat match goal with
  | H : (_ <? _) = true |- _ => apply Qlt_bool_iff in H
  | H : (_ <? _) = false |- _ => apply Qlt_bool_false in H
  | H : (_ <=? _) = true |- _ => apply Qle_bool_iff in H
  | H : (_ <=? _) = false |- _ => apply Qle_bool_false in H
  end.

Lemma cube_mono (x y : Q) : 0 <= x -> x <= y -> x * x * x <= y * y * y.
Proof.
  intros Hx Hxy.
  assert (H1 : x * x <= y * y) by nra.
  assert (H2 : 0 <= x * x) by nra.
  nra.
Qed.

Lemma Qdiv_le_compat (k a b : Q) : 0 < k -> a <= b -> a / k <= b / k.
Proof.
  intros Hk Hab. unfold Qdiv.
  assert (0 < / k) by (apply Qinv_lt_0_compat; exact Hk).
  nra.
Qed.

Lemma Qfloor_unique (y : Q) (z : Z) :
  inject_Z z <= y -> y < inject_Z z + 1 -> Qfloor y = z.
Proof.
  intros Hlo Hhi.
  pose proof (Qfloor_le y) as Hf. pose proof (Qlt_floor y) as Hg.
  rewrite inject_Z_plus in Hg. change (inject_Z 1) with 1 in Hg.
  apply Z.le_antisymm; apply Z.lt_succ_r; rewrite Zlt_Qlt; unfold Z.succ;
    rewrite inject_Z_plus; change (inject_Z 1) with 1;
    revert Hlo Hhi Hf Hg; generalize (inject_Z (Qfloor y)), (inject_Z z); intros; lra.
Qed.

(** ** Rounding *)

Lemma Math_round_mono (x y : Q) : x <= y -> Math_round x <= Math_round y.
Proof.
  intro Hxy. unfold Math_round. rewrite <- Zle_Qle.
  apply Qfloor_resp_le. lra.
Qed.

Lemma Math_round_upper (x : Q) : Math_round x <= x + 0.5.
Proof. unfold Math_round. apply Qfloor_le. Qed.

Lemma Math_round_lower (x : Q) : x - 0.5 < Math_round x.
Proof.
  unfold Math_round. pose proof (Qlt_floor (x + 0.5)) as Hf.
  rewrite inject_Z_plus in Hf. change (inject_Z 1) with 1 in Hf.
  revert Hf. generalize (inject_Z (Qfloor (x + 0.5))). intros m Hf. lra.
Qed.

Lemma Math_round_Z (z : Z) : Math_round (inject_Z z) == inject_Z z.
Proof.
  unfold Math_round. rewrite (Qfloor_unique (inject_Z z + 0.5) z); [reflexivity| |];
    generalize (inject_Z z); intros; lra.
Qed.

Lemma Math_round_comp (x y : Q) : x == y -> Math_round x == Math_round y.
Proof.
  intro E. unfold Math_round.
  assert (E' : x + 0.5 == y + 0.5) by (rewrite E; reflexivity).
  rewrite (Qfloor_comp _ _ E'). reflexivity.
Qed.

Lemma Math_round_zero_iff (x : Q) : Math_round x == 0 <-> - 0.5 <= x /\ x < 0.5.
Proof.
  split.
  - intro E. pose proof (Math_round_upper x). pose proof (Math_round_lower x).
    revert E H H0. generalize (Math_round x). intros; lra.
  - intros [Hlo Hhi]. unfold Math_round.
    rewrite (Qfloor_unique (x + 0.5) 0); [reflexivity| |]; change (inject_Z 0) with 0; lra.
Qed.

Lemma roundTo_mono k x y : 0 < k -> x <= y -> roundTo k x <= roundTo k y.
Proof.
  intros Hk Hxy. unfold roundTo.
  apply Qdiv_le_compat; [exact Hk|]. apply Math_round_mono. nra.
Qed.

Lemma roundTo_error k x : 0 < k -> Qabs (roundTo k x - x) <= 0.5 / k.
Proof.
  intros Hk. unfold roundTo.
  pose proof (Math_round_upper (x * k)) as Hu.
  pose proof (Math_round_lower (x * k)) as Hl.
  set (m := Math_round (x * k)) in *.
  assert (E : m / k - x == (m - x * k) / k) by (field; lra).
  rewrite E.
  apply Qabs_Qle_condition. split.
  - assert (E2 : - (0.5 / k) == (- 0.5) / k) by (field; lra). rewrite E2.
    apply Qdiv_le_compat; [exact Hk|lra].
  - apply Qdiv_le_compat; [exact Hk|lra].
Qed.

Lemma roundTo100_error x : Qabs (roundTo 100 x - x) <= 0.005.
Proof.
  pose proof (roundTo_error 100 x ltac:(reflexivity)) as He.
  assert (E : 0.5 / 100 == 0.005) by reflexivity. rewrite E in He. exact He.
Qed.

Lemma roundTo_zero_iff k x : 0 < k -> (roundTo k x == 0 <-> - 0.5 <= x * k /\ x * k < 0.5).
Proof.
  intro Hk. rewrite <- Math_round_zero_iff. unfold roundTo. split; intro E.
  - assert (E' : Math_round (x * k) == Math_round (x * k) / k * k) by (field; lra).
    rewrite E', E. ring.
  - rewrite E. field. lra.
Qed.

Lemma roundTo_comp k x y : x == y -> roundTo k x == roundTo k y.
Proof.
  intro E. unfold roundTo. apply Qdiv_comp; [|reflexivity].
  apply Math_round_comp. rewrite E. reflexivity.
Qed.

Lemma roundTo10_0 : roundTo 10 0 == 0.
Proof. reflexivity. Qed.

Lemma roundTo10_100 : roundTo 10 100 == 100.
Proof. reflexivity. Qed.

Lemma truthy_zero (x : Q) : x == 0 -> truthy x = false.
Proof. intro E. unfold truthy. apply Qeq_bool_iff in E. now rewrite E. Qed.

Lemma truthy_pos (x : Q) : 0 < x -> truthy x = true.
Proof.
  intro Hx. unfold truthy. destruct (Qeq_bool x 0) eqn:E; [|reflexivity].
  apply Qeq_bool_iff in E. lra.
Qed.

(** ** Sequencing *)

Lemma mapM_cons {A B} (f : A -> IO B) x l w :
  mapM f (x :: l) w =
  (fst (f x w) :: fst (mapM f l (snd (f x w))), snd (mapM f l (snd (f x w)))).
Proof.
  simpl. unfold bind, ret. destruct (f x w) as [y w1]. simpl.
  destruct (mapM f l w1) as [ys w2]. reflexivity.
Qed.

Lemma mapM_length {A B} (f : A -> IO B) l :
  forall w, List.length (fst (mapM f l w)) = List.length l.
Proof.
  induction l as [|x l IH]; intro w; [reflexivity|].
  rewrite mapM_cons. simpl. now rewrite IH.
Qed.

Lemma mapM_project {A B C} (f : A -> IO B) (g : B -> C) (h : A -> C) :
  (forall x w, g (fst (f x w)) = h x) ->
  forall l w, map g (fst (mapM f l w)) = map h l.
Proof.
  intros Hf l. induction l as [|x l IH]; intro w; [reflexivity|].
  rewrite mapM_cons. simpl. now rewrite Hf, IH.
Qed.

Lemma mapM_In {A B} (f : A -> IO B) l : forall w y,
  In y (fst (mapM f l w)) -> exists x w', In x l /\ y = fst (f x w').
Proof.
  induction l as [|x l IH]; intros w y Hy; [contradiction|].
  rewrite mapM_cons in Hy. simpl in Hy. destruct Hy as [<-|Hy].
  - exists x, w. split; [now left|reflexivity].
  - destruct (IH _ _ Hy) as (x' & w' & Hx' & ->). exists x', w'.
    split; [now right|reflexivity].
Qed.

Lemma mapM_nth_error {A B} (f : A -> IO B) l : forall w i x,
  nth_error l i = Some x ->
  exists w', nth_error (fst (mapM f l w)) i = Some (fst (f x w')).
Proof.
  induction l as [|a l IH]; intros w i x Hi; [destruct i; discriminate|].
  rewrite mapM_cons. destruct i as [|i]; simpl in *.
  - injection Hi as ->. now exists w.
  - apply IH. exact Hi.
Qed.

Lemma mapM_ext {A B} (f g : A -> IO B) :
  (forall x w, f x w = g x w) -> forall l w, mapM f l w = mapM g l w.
Proof.
  intros Hfg l. induction l as [|x l IH]; intro w; [reflexivity|].
  rewrite !mapM_cons, Hfg, !IH. reflexivity.
Qed.

(** ** The power-curve model *)

Lemma expectedPower_ramp (w : Q) :
  3 <= w -> w < 12 -> calculateExpectedPower w == cubicRamp w.
Proof.
  intros H3 H12. unfold calculateExpectedPower, cubicRamp, Math_pow.
  destruct (w <? 3) eqn:E1; qbool; [lra|].
  destruct (25 <=? w) eqn:E2; qbool; [lra|].
  destruct (12 <=? w) eqn:E3; qbool; [lra|].
  assert (E : (w - 3) / (12 - 3) == (w - 3) / 9) by (field).
  rewrite E. reflexivity.
Qed.

Lemma expectedPower_rated (w : Q) :
  12 <= w -> w < 25 -> calculateExpectedPower w == 2000.
Proof.
  intros H12 H25. unfold calculateExpectedPower.
  destruct (w <? 3) eqn:E1; qbool; [lra|].
  destruct (25 <=? w) eqn:E2; qbool; [lra|].
  destruct (12 <=? w) eqn:E3; qbool; [reflexivity|lra].
Qed.

Lemma cubicRamp_mono a b : 3 <= a -> a <= b -> cubicRamp a <= cubicRamp b.
Proof.
  intros Ha Hab. unfold cubicRamp. simpl.
  assert (H1 : 0 <= (a - 3) / 9) by (apply Qle_shift_div_l; lra).
  assert (H2 : (a - 3) / 9 <= (b - 3) / 9) by (apply Qdiv_le_compat; lra).
  pose proof (cube_mono _ _ H1 H2). lra.
Qed.

Lemma calculateExpectedPower_nonneg w : 0 <= calculateExpectedPower w.
Proof.
  unfold calculateExpectedPower, Math_pow.
  destruct (w <? 3) eqn:E1; qbool; [lra|].
  destruct (25 <=? w) eqn:E2; qbool; [lra|].
  destruct (12 <=? w) eqn:E3; qbool; [lra|].
  assert (E : (w - 3) / (12 - 3) == (w - 3) * (1 # 9)) by field.
  rewrite E. simpl.
  assert (0 <= (w - 3) * (1 # 9)) by lra.
  set (n := (w - 3) * (1 # 9)) in *.
  assert (0 <= n * n) by nra. nra.
Qed.

Lemma expectedPower_pos ws : 3 < ws -> ws < 25 -> 0 < calculateExpectedPower ws.
Proof.
  intros H3 H25. unfold calculateExpectedPower, Math_pow.
  destruct (ws <? 3) eqn:E1; qbool; [lra|].
  destruct (25 <=? ws) eqn:E2; qbool; [lra|].
  destruct (12 <=? ws) eqn:E3; qbool; [lra|].
  assert (E : (ws - 3) / (12 - 3) == (ws - 3) * (1 # 9)) by field.
  rewrite E. simpl.
  assert (Hn : 0 < (ws - 3) * (1 # 9)) by lra.
  set (n := (ws - 3) * (1 # 9)) in *.
  assert (0 < n * n) by nra. nra.
Qed.

Lemma expectedPower_zero ws : ws <= 3 \/ 25 <= ws -> calculateExpectedPower ws == 0.
Proof.
  intros Hw. unfold calculateExpectedPower, Math_pow.
  destruct (ws <? 3) eqn:E1; qbool; [reflexivity|].
  destruct (25 <=? ws) eqn:E2; qbool; [reflexivity|].
  destruct (12 <=? ws) eqn:E3; qbool; [lra|].
  assert (E : ws == 3) by lra. rewrite E. reflexivity.
Qed.

(** C1: the power curve is 0 below the cut-in speed 3 and from the cut-out
    speed 25 on, 2000 on [12, 25), the cubic ramp 2000 * ((w - 3) / 9)^3 on
    [3, 12); it returns a value for every wind speed and is non-decreasing
    on [3, 12]. *)
Theorem expected_power_piecewise :
  (forall w, exists p, calculateExpectedPower w = p) /\
  (forall w, w < 3 -> calculateExpectedPower w == 0) /\
  (forall w, 25 <= w -> calculateExpectedPower w == 0) /\
  (forall w, 12 <= w -> w < 25 -> calculateExpectedPower w == 2000) /\
  (forall w, 3 <= w -> w < 12 ->
     calculateExpectedPower w == 2000 * ((w - 3) / 9) ^ 3) /\
  (forall a b, 3 <= a -> a <= b -> b <= 12 ->
     calculateExpectedPower a <= calculateExpectedPower b).
Proof.
  split; [intro w; eexists; reflexivity|].
  split; [intros w Hw; apply expectedPower_zero; left; lra|].
  split; [intros w Hw; apply expectedPower_zero; right; exact Hw|].
  split; [exact expectedPower_rated|].
  split; [exact expectedPower_ramp|].
  intros a b H3 Hab H12.
  destruct (Qlt_le_dec b 12) as [Hb|Hb].
  - rewrite !expectedPower_ramp by lra. apply cubicRamp_mono; assumption.
  - rewrite (expectedPower_rated b) by lra.
    destruct (Qlt_le_dec a 12) as [Ha|Ha].
    + rewrite expectedPower_ramp by lra.
      assert (E12 : cubicRamp 12 == 2000) by reflexivity.
      rewrite <- E12. apply cubicRamp_mono; lra.
    + rewrite (expectedPower_rated a) by lra. lra.
Qed.

Lemma expected_power_piecewise_witness :
  calculateExpectedPower 2 == 0 /\
  calculateExpectedPower 30 == 0 /\
  calculateExpectedPower 20 == 2000 /\
  calculateExpectedPower 6 == 2000 * ((6 - 3) / 9) ^ 3 /\
  calculateExpectedPower 5 <= calculateExpectedPower 10.
Proof.
  destruct expected_power_piecewise as (_ & Hlow & Hout & Hrated & Hramp & Hmono).
  split; [apply (Hlow 2); reflexivity|].
  split; [apply (Hout 30); discriminate|].
  split; [apply (Hrated 20); [discriminate|reflexivity]|].
  split; [apply (Hramp 6); [discriminate|reflexivity]|].
  apply (Hmono 5 10); discriminate.
Defined.

(** C8: the model at 12, 3 and 7.5 m/s: 2000, 0, and
    2000 * ((7.5 - 3) / 9)^3, which is 250. *)
Theorem expected_power_concrete_values :
  calculateExpectedPower 12 == 2000 /\
  calculateExpectedPower 3 == 0 /\
  calculateExpectedPower 7.5 == 2000 * ((7.5 - 3) / 9) ^ 3 /\
  calculateExpectedPower 7.5 == 250.
Proof. repeat split. Qed.

(** C8, as stated: the value at 7.5 m/s is 250, not within 0.05 of 216.4. *)
Lemma expected_power_7_5_not_216_4 :
  calculateExpectedPower 7.5 == 250 /\
  ~ Qabs (calculateExpectedPower 7.5 - 216.4) <= 0.05.
Proof.
  split; [reflexivity|].
  intro Habs. vm_compute in Habs. apply Habs. reflexivity.
Qed.

(** ** Power-curve samples *)

Lemma windSpeeds_two_decimals :
  forallb (fun ws => Qeq_bool (roundTo 100 ws) ws) windSpeeds = true.
Proof. vm_compute. reflexivity. Qed.

Lemma powerCurvePoint_baseline `{Host} unitId numPoints now ws w :
  baseline (fst (powerCurvePoint unitId numPoints now ws w)) = baselineAt ws.
Proof.
  unfold powerCurvePoint, bind.
  match goal with |- context [let (a, w') := ?m w in _] => destruct (m w) as [a w'] end.
  reflexivity.
Qed.

Lemma generatePowerCurveData_baseline `{Host} unitId numPoints w :
  map baseline (fst (generatePowerCurveData unitId numPoints w)) = map baselineAt windSpeeds.
Proof.
  unfold generatePowerCurveData, bind. destruct (Date_now w) as [now w1].
  apply mapM_project. intros. apply powerCurvePoint_baseline.
Qed.

Lemma generatePowerCurveData_In `{Host} unitId numPoints w s :
  In s (fst (generatePowerCurveData unitId numPoints w)) ->
  exists now ws w', In ws windSpeeds /\ s = fst (powerCurvePoint unitId numPoints now ws w').
Proof.
  intro Hs. unfold generatePowerCurveData, bind in Hs.
  destruct (Date_now w) as [now w1].
  apply mapM_In in Hs. destruct Hs as (ws & w' & Hws & ->).
  now exists now, ws, w'.
Qed.

(** C9: two sweeps for the same unit, whatever the draws, the clock and
    [numPoints] of each run, have the same length and carry the same
    windSpeed, minPower, maxPower and expectedPower at every position. *)
Theorem baseline_fields_independent_of_draws (H1 H2 : Host) unitId n1 n2 w1 w2 :
  let run1 := fst (@generatePowerCurveData H1 unitId n1 w1) in
  let run2 := fst (@generatePowerCurveData H2 unitId n2 w2) in
  List.length run1 = List.length run2 /\
  map windSpeed run1 = map windSpeed run2 /\
  map minPower run1 = map minPower run2 /\
  map maxPower run1 = map maxPower run2 /\
  map expectedPower run1 = map expectedPower run2.
Proof.
  intros run1 run2.
  assert (E : map baseline run1 = map baseline run2).
  { unfold run1, run2. now rewrite !generatePowerCurveData_baseline. }
  split.
  - rewrite <- (length_map baseline run1), E. apply length_map.
  - repeat split.
    + change windSpeed with (fun p => fst (fst (fst (baseline p)))).
      rewrite <- !(map_map baseline (fun t => fst (fst (fst t)))). now rewrite E.
    + change minPower with (fun p => snd (fst (fst (baseline p)))).
      rewrite <- !(map_map baseline (fun t => snd (fst (fst t)))). now rewrite E.
    + change maxPower with (fun p => snd (fst (baseline p))).
      rewrite <- !(map_map baseline (fun t => snd (fst t))). now rewrite E.
    + change expectedPower with (fun p => snd (baseline p)).
      rewrite <- !(map_map baseline (fun t => snd t)). now rewrite E.
Qed.

(** C7: every sample has minPower <= maxPower; its band is rounded from
    the unrounded model value at its wind speed: expectedPower is
    round1(e), minPower is round1(0.85 * e) and maxPower is
    round1(1.05 * e) for e = calculateExpectedPower(windSpeed). *)
Theorem sample_band_from_unrounded_expected `{Host} unitId numPoints w s :
  In s (fst (generatePowerCurveData unitId numPoints w)) ->
  minPower s <= maxPower s /\
  exists ws, In ws windSpeeds /\
    windSpeed s == ws /\
    expectedPower s == roundTo 10 (calculateExpectedPower ws) /\
    minPower s == roundTo 10 (0.85 * calculateExpectedPower ws) /\
    maxPower s == roundTo 10 (1.05 * calculateExpectedPower ws).
Proof.
  intro Hs. apply generatePowerCurveData_In in Hs.
  destruct Hs as (now & ws & w' & Hws & ->).
  pose proof (powerCurvePoint_baseline unitId numPoints now ws w') as Hb.
  unfold baseline, baselineAt in Hb. injection Hb as Hw Hmin Hmax Hexp.
  rewrite Hw, Hmin, Hmax, Hexp.
  pose proof (calculateExpectedPower_nonneg ws) as He.
  split.
  - apply Qdiv_le_compat; [reflexivity|]. apply Math_round_mono.
    nra.
  - exists ws. split; [exact Hws|]. split.
    + pose proof windSpeeds_two_decimals as Hall.
      rewrite forallb_forall in Hall. apply Qeq_bool_eq, Hall, Hws.
    + unfold roundTo. repeat split.
      * apply Qdiv_comp; [|reflexivity]. apply Math_round_comp. ring.
      * apply Qdiv_comp; [|reflexivity]. apply Math_round_comp. ring.
Qed.

Lemma sample_band_from_unrounded_expected_witness :
  exists s, sampleAt (constHost 0.5) 1 18 = Some s /\
    minPower s <= maxPower s /\
    exists ws, In ws windSpeeds /\
    windSpeed s == ws /\
    expectedPower s == roundTo 10 (calculateExpectedPower ws) /\
    minPower s == roundTo 10 (0.85 * calculateExpectedPower ws) /\
    maxPower s == roundTo 10 (1.05 * calculateExpectedPower ws).
Proof.
  destruct (sampleAt (constHost 0.5) 1 18) as [s|] eqn:E; [|vm_compute in E; discriminate E].
  exists s. split; [reflexivity|].
  apply (@sample_band_from_unrounded_expected (constHost 0.5) 1 200 world0 s).
  apply nth_error_In with (n := 18%nat). exact E.
Defined.

(** C7, as stated: the sample at 5 m/s has minPower 18.7 and expectedPower
    21.9, and 0.85 * 21.9 rounds to 18.6. *)
Lemma min_power_differs_from_rounded_expected :
  exists s, sampleAt (constHost 0.5) 1 18 = Some s /\
    windSpeed s == 5 /\ expectedPower s == 21.9 /\ minPower s == 18.7 /\
    roundTo 10 (0.85 * expectedPower s) == 18.6 /\
    ~ minPower s == roundTo 10 (0.85 * expectedPower s).
Proof.
  eexists. split; [vm_compute; reflexivity|].
  repeat split; try reflexivity.
  intro Habs. vm_compute in Habs. discriminate Habs.
Qed.

Lemma powerCurvePoint_cut_in `{Host} unitId numPoints now w :
  let s := fst (powerCurvePoint unitId numPoints now 3 w) in
  windSpeed s == 3 /\ expectedPower s == 0 /\ actualPower s = None.
Proof.
  unfold powerCurvePoint.
  change ((3 >=? 3) && (3 <=? 25)) with true.
  change (3 >? 11) with false.
  change ((3 >=? 4) && (3 <=? 11)) with false.
  cbv iota.
  destruct (unitId =? 6)%Z; cbv [negb]; cbv iota.
  - unfold criticalPower.
    change (findSpike 3 [6.5; 10; 13.5; 17; 20.5]) with (false, 0).
    cbv iota beta. unfold bind, ret, Math_random. simpl.
    repeat split; reflexivity.
  - unfold lowWindPower, bind, ret, Math_random. simpl.
    repeat split; reflexivity.
Qed.

(** C4: the sample at the cut-in speed 3 m/s (position 6 of every sweep,
    for every unit and all draws) passes the guard [windSpeed >= 3], gets
    an actual power of 0 because the expected power is 0 there, and is
    returned without actualPower, since [actualPower ? ... : undefined]
    takes 0 for absent. *)
Theorem actual_power_absent_at_cut_in `{Host} unitId numPoints w :
  exists s,
    nth_error (fst (generatePowerCurveData unitId numPoints w)) 6 = Some s /\
    windSpeed s == 3 /\ expectedPower s == 0 /\ actualPower s = None.
Proof.
  unfold generatePowerCurveData, bind. destruct (Date_now w) as [now w1].
  assert (E6 : nth_error windSpeeds 6 = Some 3) by (vm_compute; reflexivity).
  destruct (mapM_nth_error (powerCurvePoint unitId numPoints now) windSpeeds w1 6%nat 3 E6)
    as (w' & Hn).
  eexists. split; [exact Hn|]. apply powerCurvePoint_cut_in.
Qed.

(** ** Sorting by deviation *)

Section ArraySort.
Context {A : Type} (compareFn : A -> A -> Q).

Lemma sort_insert_perm x l : Permutation (x :: l) (sort_insert compareFn x l).
Proof.
  induction l as [|y l IH]; simpl; [reflexivity|].
  destruct (compareFn x y >? 0); [|reflexivity].
  rewrite perm_swap. now apply perm_skip.
Qed.

Lemma Array_sort_perm l : Permutation l (Array_sort compareFn l).
Proof.
  induction l as [|x l IH]; simpl; [constructor|].
  rewrite <- sort_insert_perm. now apply perm_skip.
Qed.
End ArraySort.

Lemma sort_insert_sorted x l :
  sortedDesc l -> sortedDesc (sort_insert compareDeviation x l).
Proof.
  unfold sortedDesc. induction l as [|y l IH]; intro Hs; simpl.
  - repeat constructor.
  - apply StronglySorted_inv in Hs. destruct Hs as [Hl Hy].
    destruct (compareDeviation x y >? 0) eqn:E; qbool; unfold compareDeviation in E.
    + constructor; [apply IH, Hl|].
      apply (Permutation_Forall (sort_insert_perm compareDeviation x l)).
      constructor; [unfold byDeviationDesc; lra|exact Hy].
    + constructor; [constructor; assumption|].
      constructor; [unfold byDeviationDesc; lra|].
      revert Hy. apply Forall_impl. unfold byDeviationDesc. intros z Hz. lra.
Qed.

Lemma sortFactorsByDeviation_sorted l : sortedDesc (sortFactorsByDeviation l).
Proof.
  unfold sortFactorsByDeviation, Array_sort.
  induction l as [|x l IH]; simpl; [constructor|].
  apply (sort_insert_sorted x _ IH).
Qed.

Lemma sortedDescb_complete l : sortedDesc l -> sortedDescb l = true.
Proof.
  unfold sortedDesc. induction 1 as [|a l Hl IH Ha]; simpl; [reflexivity|].
  rewrite IH, andb_true_r. apply forallb_forall. intros b Hb.
  apply Qle_bool_iff. rewrite Forall_forall in Ha. apply (Ha b Hb).
Qed.

(** ** The factor simulator *)

Lemma rangeDeviation_nonneg v r : 0 <= rangeDeviation v r.
Proof.
  unfold rangeDeviation.
  destruct (v <? min r) eqn:E1; qbool; [lra|].
  destruct (max r <? v) eqn:E2; qbool; lra.
Qed.

Lemma rangeDeviation_distance v r :
  min r <= max r -> rangeDeviation v r == distanceOutside r v.
Proof.
  intro Hr. unfold rangeDeviation, distanceOutside.
  destruct (v <? min r) eqn:E1; qbool.
  - rewrite (Q.max_l (min r - v)) by lra. rewrite Q.max_r by lra. reflexivity.
  - destruct (max r <? v) eqn:E2; qbool.
    + rewrite (Q.max_r (min r - v)) by lra. rewrite Q.max_r by lra. reflexivity.
    + rewrite Q.max_l; [reflexivity|]. apply Q.max_lub; lra.
Qed.

Lemma rangeDeviation_zero_iff v r :
  min r <= max r -> (rangeDeviation v r == 0 <-> within r v).
Proof.
  intro Hr. unfold rangeDeviation, within.
  destruct (v <? min r) eqn:E1; qbool; [lra|].
  destruct (max r <? v) eqn:E2; qbool; lra.
Qed.

Lemma rawScore_bounds r v : min r < max r -> 0 <= rawScore r v /\ rawScore r v <= 100.
Proof.
  intro Hr. unfold rawScore. split; [|apply Q.le_min_l].
  apply Q.min_glb; [lra|].
  assert (0 <= distanceOutside r v) by (unfold distanceOutside; apply Q.le_max_l).
  assert (0 < / width r) by (apply Qinv_lt_0_compat; unfold width; lra).
  unfold Qdiv. nra.
Qed.

Lemma rawScore_small_iff r v :
  min r < max r -> (rawScore r v < 0.05 <-> distanceOutside r v * 2000 < width r).
Proof.
  intro Hr. unfold rawScore. rewrite Q.min_lt_iff.
  assert (Hw : 0 < width r) by (unfold width; lra).
  set (d := distanceOutside r v). set (wd := width r) in *.
  assert (Hi : 0 < / wd) by (apply Qinv_lt_0_compat; exact Hw).
  assert (E1 : wd * / wd == 1) by (field; lra).
  assert (E : d / wd * 100 < 0.05 <-> d * 2000 < wd).
  { unfold Qdiv. split; intro Hlt.
    - assert (Hm : d * / wd * 100 * wd < 0.05 * wd) by nra.
      assert (E' : d * / wd * 100 * wd == d * 100 * (wd * / wd)) by ring.
      rewrite E', E1 in Hm. lra.
    - assert (Hm : 0 < (wd - d * 2000) * / wd) by nra.
      assert (E' : (wd - d * 2000) * / wd == wd * / wd - d * / wd * 2000) by ring.
      rewrite E', E1 in Hm. lra. }
  rewrite <- E. split; [intros [Habs|Hlt]; [lra|exact Hlt]|intro Hlt; now right].
Qed.

Lemma score_raw v r :
  min r < max r ->
  Qmin 100 (Qabs (rangeDeviation v r) / width r * 100) == rawScore r v.
Proof.
  intro Hr. unfold rawScore.
  rewrite (Qabs_pos _ (rangeDeviation_nonneg v r)).
  rewrite rangeDeviation_distance by lra. reflexivity.
Qed.

Lemma slice_last_snoc {A : Type} (n : nat) (l : list A) (x : A) :
  slice_last (S n) (l ++ [x])%list = (slice_last n l ++ [x])%list.
Proof.
  unfold slice_last. rewrite length_app. simpl.
  replace (List.length l + 1 - S n)%nat with (List.length l - n)%nat by lia.
  rewrite skipn_app.
  replace (List.length l - n - List.length l)%nat with 0%nat by lia.
  reflexivity.
Qed.

Lemma slice_last_length {A : Type} (n : nat) (l : list A) :
  List.length (slice_last n l) = Nat.min n (List.length l).
Proof. unfold slice_last. rewrite length_skipn. lia. Qed.

(** What one step of the simulator returns, in terms of the drawn value. *)
Lemma nextFactor_spec `{Host} c t f w :
  let f' := fst (nextFactor c t f w) in
  let v := fst (nextValue c f w) in
  id f' = id f /\ normalRange f' = normalRange f /\
  history f' = (slice_last 19 (history f) ++ [ {| time := t; hvalue := v |} ])%list /\
  value f' = roundTo 10 v /\
  deviation f' = roundTo 10 (rangeDeviation v (normalRange f)) /\
  deviationScore f' =
    roundTo 10 (Qmin 100 (Qabs (rangeDeviation v (normalRange f)) / width (normalRange f) * 100)).
Proof.
  unfold nextFactor, bind. destruct (nextValue c f w) as [v w']. simpl.
  rewrite slice_last_snoc. repeat split; reflexivity.
Qed.

Lemma generateNextDataPoint_In `{Host} unitId currentTime factors w f' :
  In f' (fst (generateNextDataPoint unitId currentTime factors w)) ->
  exists t f w', In f factors /\ f' = fst (nextFactor (unitId =? 6)%Z t f w').
Proof.
  intro Hin. unfold generateNextDataPoint, bind in Hin.
  destruct (Date_now w) as [t w1]. apply mapM_In in Hin.
  destruct Hin as (f & w' & Hf & ->). now exists t, f, w'.
Qed.

(** C2: what the page stores after a tick is the sorted copy of what
    [generateNextDataPoint] returns: in descending order of deviationScore
    and with the same records; [generateNextDataPoint] itself returns the
    records in the order of its input. *)
Theorem tick_sorted_by_deviation `{Host} unitId currentTime factors w :
  let updated := fst (generateNextDataPoint unitId currentTime factors w) in
  let stored := fst (tick unitId currentTime factors w) in
  stored = sortFactorsByDeviation updated /\
  sortedDesc stored /\
  Permutation updated stored /\
  map id updated = map id factors.
Proof.
  intros updated stored.
  assert (E : stored = sortFactorsByDeviation updated).
  { unfold stored, updated, tick, bind.
    destruct (generateNextDataPoint unitId currentTime factors w). reflexivity. }
  split; [exact E|]. rewrite E. split; [apply sortFactorsByDeviation_sorted|].
  split; [apply Array_sort_perm|].
  unfold updated, generateNextDataPoint, bind. destruct (Date_now w) as [t w1].
  rewrite (mapM_project _ id id); [reflexivity|].
  intros. apply nextFactor_spec.
Qed.

(** C2, as stated: one tick of unit 6 from its initial factors, every draw
    1/2, returns the scores 100, 25, 100, 8.3 in the order pitch, rotor,
    generator, windSpeed. *)
Lemma next_data_point_not_sorted :
  let updated :=
    fst (@generateNextDataPoint (constHost 0.5) 6 0 (criticalStart (constHost 0.5)) world0) in
  map id updated = ["pitch"; "rotor"; "generator"; "windSpeed"] /\
  map (fun f => Qred (deviationScore f)) updated = [100; 25; 100; 8.3] /\
  ~ sortedDesc updated.
Proof.
  split; [vm_compute; reflexivity|].
  split; [vm_compute; reflexivity|].
  intro Hs. apply sortedDescb_complete in Hs.
  vm_compute in Hs. discriminate Hs.
Qed.

(** C3: every record returned by [generateNextDataPoint] keeps at most 20
    history points, the last of which holds the value v just drawn; its
    value field is v rounded to one decimal; and when the normal range has
    min < max, deviation is the distance of v outside the range rounded to
    one decimal, deviationScore is min(100, distance / (max - min) * 100)
    rounded to one decimal and lies in [0, 100], deviationScore is 0
    exactly when that distance is below (max - min) / 2000, and in
    particular when v lies in the range. *)
Theorem next_factor_record_invariants `{Host} unitId currentTime factors w f' :
  In f' (fst (generateNextDataPoint unitId currentTime factors w)) ->
  (List.length (history f') <= 20)%nat /\
  exists older t v,
    history f' = (older ++ [ {| time := t; hvalue := v |} ])%list /\
    value f' == roundTo 10 v /\
    (min (normalRange f') < max (normalRange f') ->
       deviation f' == roundTo 10 (distanceOutside (normalRange f') v) /\
       deviationScore f' == roundTo 10 (rawScore (normalRange f') v) /\
       0 <= deviationScore f' /\ deviationScore f' <= 100 /\
       (deviationScore f' == 0 <->
          distanceOutside (normalRange f') v * 2000 < width (normalRange f')) /\
       (within (normalRange f') v -> deviationScore f' == 0)).
Proof.
  intro Hin. apply generateNextDataPoint_In in Hin.
  destruct Hin as (t & f & w' & _ & ->).
  destruct (nextFactor_spec (unitId =? 6)%Z t f w') as (_ & Hr & Hh & Hv & Hd & Hs).
  set (f' := fst (nextFactor (unitId =? 6)%Z t f w')) in *.
  set (v := fst (nextValue (unitId =? 6)%Z f w')) in *.
  split.
  { rewrite Hh, length_app. pose proof (slice_last_length 19 (history f)). simpl. lia. }
  exists (slice_last 19 (history f)), t, v.
  split; [exact Hh|]. split; [rewrite Hv; reflexivity|].
  rewrite Hr. intro Hlt.
  assert (Es : deviationScore f' == roundTo 10 (rawScore (normalRange f) v)).
  { rewrite Hs. apply roundTo_comp, score_raw, Hlt. }
  destruct (rawScore_bounds (normalRange f) v Hlt) as [Hlo Hhi].
  assert (Hz : deviationScore f' == 0 <->
               distanceOutside (normalRange f) v * 2000 < width (normalRange f)).
  { rewrite Es, roundTo_zero_iff by reflexivity.
    rewrite <- rawScore_small_iff by exact Hlt.
    split; [intros [_ Hlt']|intro Hlt']; lra. }
  split.
  { rewrite Hd. apply roundTo_comp, rangeDeviation_distance. lra. }
  split; [exact Es|].
  split.
  { rewrite Es, <- roundTo10_0. apply roundTo_mono; [reflexivity|exact Hlo]. }
  split.
  { rewrite Es, <- roundTo10_100. apply roundTo_mono; [reflexivity|exact Hhi]. }
  split; [exact Hz|].
  intro Hw. apply Hz.
  assert (E0 : distanceOutside (normalRange f) v == 0).
  { rewrite <- rangeDeviation_distance by lra. apply rangeDeviation_zero_iff; [lra|exact Hw]. }
  rewrite E0. unfold width. lra.
Qed.

Lemma next_factor_record_invariants_witness :
  let H := scriptHost anomalyScript in
  exists f',
    nth_error (fst (@generateNextDataPoint H 6 0 (criticalStart H) world0)) 1 = Some f' /\
    (List.length (history f') <= 20)%nat /\
    0 <= deviationScore f' /\ deviationScore f' <= 100.
Proof.
  intro H. eexists. split; [vm_compute; reflexivity|].
  match goal with |- (List.length (history ?f) <= _)%nat /\ _ =>
    assert (Hin : In f (fst (@generateNextDataPoint H 6 0 (criticalStart H) world0)))
      by (apply nth_error_In with (n := 1%nat); vm_compute; reflexivity);
    destruct (@next_factor_record_invariants H 6 0 (criticalStart H) world0 f Hin)
      as (Hlen & older & t & v & Hh & Hv & Hrange)
  end.
  split; [exact Hlen|].
  destruct (Hrange ltac:(reflexivity)) as (_ & _ & Hlo & Hhi & _).
  split; assumption.
Defined.

(** C3, as stated: a tick of unit 6 in which the rotor draws 13.9688 RPM
    returns the value field 14, inside the range [14, 18], with
    deviationScore 0.8, which is neither 0 nor the unrounded
    min(100, 0.0312 / 4 * 100) = 0.78. *)
Lemma rounded_value_in_range_with_nonzero_score :
  let H := scriptHost anomalyScript in
  exists f',
    nth_error (fst (@generateNextDataPoint H 6 0 (criticalStart H) world0)) 1 = Some f' /\
    id f' = "rotor" /\
    min (normalRange f') == 14 /\ max (normalRange f') == 18 /\
    option_map hvalue (nth_error (history f') 19) = Some 13.9688 /\
    value f' == 14 /\ within (normalRange f') (value f') /\
    rawScore (normalRange f') 13.9688 == 0.78 /\
    deviationScore f' == 0.8 /\
    ~ deviationScore f' == 0 /\
    ~ deviationScore f' == rawScore (normalRange f') 13.9688.
Proof.
  eexists. split; [vm_compute; reflexivity|].
  split; [reflexivity|].
  split; [reflexivity|]. split; [reflexivity|].
  split; [vm_compute; reflexivity|].
  split; [reflexivity|].
  split; [split; vm_compute; discriminate|].
  split; [reflexivity|]. split; [reflexivity|].
  split; intro Habs; vm_compute in Habs; discriminate Habs.
Qed.

Lemma roundTo10_within r v :
  within r v ->
  roundTo 10 (min r) == min r -> roundTo 10 (max r) == max r ->
  within r (roundTo 10 v).
Proof.
  intros [Hlo Hhi] Emin Emax. split.
  - rewrite <- Emin. apply roundTo_mono; [reflexivity|exact Hlo].
  - rewrite <- Emax. apply roundTo_mono; [reflexivity|exact Hhi].
Qed.

Lemma nominal_value_within `{Host} f w :
  unit_interval -> knownFactor (id f) -> configured f ->
  within (normalRange f) (fst (nextValue false f w)) /\
  roundTo 10 (min (normalRange f)) == min (normalRange f) /\
  roundTo 10 (max (normalRange f)) == max (normalRange f).
Proof.
  intros Hu Hk Hc. unfold configured in Hc. unfold nextValue.
  destruct (Hu (draws w)) as [H0 H1].
  unfold knownFactor in Hk. simpl in Hk.
  destruct Hk as [E|[E|[E|[E|[]]]]]; rewrite <- E in *; simpl in Hc;
    injection Hc as <-; simpl; unfold within; simpl;
    (split; [lra|split; reflexivity]).
Qed.

Lemma initial_factors_configured `{Host} unitId w f :
  In f (fst (initializeCorrelationFactors unitId w)) ->
  knownFactor (id f) /\ configured f.
Proof.
  unfold initializeCorrelationFactors. intro Hin.
  apply mapM_In in Hin. destruct Hin as (row & w' & Hrow & ->).
  simpl in Hrow.
  destruct Hrow as [<-|[<-|[<-|[<-|[]]]]];
    match goal with |- context [generateInitialHistory ?a ?b ?c] =>
      unfold bind; destruct (calculateInitialDeviation _ _);
      destruct (generateInitialHistory a b c w') end;
    unfold knownFactor, configured; simpl; intuition.
Qed.

Lemma generateNextDataPoint_configured `{Host} unitId currentTime factors w :
  Forall (fun f => knownFactor (id f) /\ configured f) factors ->
  Forall (fun f => knownFactor (id f) /\ configured f)
         (fst (generateNextDataPoint unitId currentTime factors w)).
Proof.
  intro Hall. apply Forall_forall. intros f' Hin.
  apply generateNextDataPoint_In in Hin. destruct Hin as (t & f & w' & Hf & ->).
  rewrite Forall_forall in Hall. destruct (Hall f Hf) as [Hk Hc].
  destruct (nextFactor_spec (unitId =? 6)%Z t f w') as (Hid & Hr & _).
  unfold configured. rewrite Hid, Hr. split; assumption.
Qed.

(** What a tick of a non-critical unit does to a configured factor. *)
Lemma nominal_nextFactor `{Host} t f w :
  unit_interval -> knownFactor (id f) -> configured f ->
  let f' := fst (nextFactor false t f w) in
  let v := fst (nextValue false f w) in
  within (normalRange f') v /\ within (normalRange f') (value f') /\
  deviation f' == 0 /\ deviationScore f' == 0.
Proof.
  intros Hu Hk Hc f' v.
  destruct (nextFactor_spec false t f w) as (Hid & Hr & Hh & Hv & Hd & Hs).
  destruct (nominal_value_within f w Hu Hk Hc) as (Hw & Emin & Emax).
  fold f' v in Hid, Hr, Hh, Hv, Hd, Hs, Hw. rewrite Hr.
  assert (Ed : rangeDeviation v (normalRange f) == 0).
  { destruct Hw. apply rangeDeviation_zero_iff; [lra|split; assumption]. }
  split; [exact Hw|].
  split; [rewrite Hv; apply roundTo10_within; assumption|].
  split.
  - rewrite Hd, (roundTo_comp 10 _ 0 Ed). reflexivity.
  - rewrite Hs.
    assert (E0 : Qmin 100 (Qabs (rangeDeviation v (normalRange f))
                           / width (normalRange f) * 100) == 0).
    { rewrite Ed. change (Qabs 0) with 0. unfold Qdiv. rewrite !Qmult_0_l.
      reflexivity. }
    rewrite (roundTo_comp 10 _ 0 E0). reflexivity.
Qed.

(** C10: for a unit other than 6 and draws in [0, 1), every returned
    factor whose id is one of pitch, rotor, generator, windSpeed and whose
    normalRange is the one the factor table configures for that id has its
    newly drawn value inside the range, its value field inside the range,
    deviation 0 and deviationScore 0. *)
Theorem nominal_configured_factor_zero_deviation `{Host} unitId currentTime factors w f' :
  unit_interval -> unitId <> 6%Z ->
  In f' (fst (generateNextDataPoint unitId currentTime factors w)) ->
  knownFactor (id f') -> configured f' ->
  exists older t v,
    history f' = (older ++ [ {| time := t; hvalue := v |} ])%list /\
    within (normalRange f') v /\
    within (normalRange f') (value f') /\
    deviation f' == 0 /\ deviationScore f' == 0.
Proof.
  intros Hu Hn Hin Hk Hc. apply generateNextDataPoint_In in Hin.
  destruct Hin as (t & f & w' & _ & ->).
  apply Z.eqb_neq in Hn. rewrite Hn in *.
  destruct (nextFactor_spec false t f w') as (Hid & Hr & Hh & _).
  unfold configured in Hc. rewrite Hid, Hr in Hc. rewrite Hid in Hk.
  exists (slice_last 19 (history f)), t, (fst (nextValue false f w')).
  split; [exact Hh|]. apply nominal_nextFactor; assumption.
Qed.

Lemma nominal_configured_factor_zero_deviation_witness :
  let H := constHost 0.5 in
  exists f',
    nth_error (fst (@generateNextDataPoint H 4 0 (nominalStart H) world0)) 1 = Some f' /\
    id f' = "rotor" /\
    within (normalRange f') (value f') /\
    deviation f' == 0 /\ deviationScore f' == 0.
Proof.
  intro H. eexists. split; [vm_compute; reflexivity|].
  split; [reflexivity|].
  match goal with |- within _ (value ?f) /\ _ =>
    assert (Hin : In f (fst (@generateNextDataPoint H 4 0 (nominalStart H) world0)))
      by (apply nth_error_In with (n := 1%nat); vm_compute; reflexivity);
    assert (Hu : @unit_interval H)
      by (intro n; split; [discriminate|reflexivity]);
    destruct (@nominal_configured_factor_zero_deviation H 4 0 (nominalStart H) world0 f
                Hu ltac:(discriminate) Hin
                ltac:(right; left; reflexivity) ltac:(reflexivity))
      as (older & t & v & _ & _ & Hval & Hdev & Hscore)
  end.
  split; [exact Hval|]. split; [exact Hdev|exact Hscore].
Defined.

(** C10, as stated: unit 1 given a pitch factor whose range is [10, 20]
    draws 3.5 degrees and returns deviation 6.5 and deviationScore 65. *)
Lemma misranged_pitch_nonzero_score :
  exists f',
    fst (@generateNextDataPoint (constHost 0.5) 1 0 [misrangedPitch] world0) = [f'] /\
    knownFactor (id f') /\
    value f' == 3.5 /\ ~ within (normalRange f') (value f') /\
    deviation f' == 6.5 /\ deviationScore f' == 65 /\ ~ deviationScore f' == 0.
Proof.
  eexists. split; [vm_compute; reflexivity|].
  split; [left; reflexivity|]. split; [reflexivity|].
  split; [intros [Hlo _]; vm_compute in Hlo; apply Hlo; reflexivity|].
  split; [reflexivity|]. split; [reflexivity|].
  intro Habs; vm_compute in Habs; discriminate Habs.
Qed.

(** ** Unit classes *)

Lemma registered_iff unitId :
  registered unitId <-> (1 <= unitId <= 6)%Z.
Proof.
  unfold registered. simpl. lia.
Qed.

Lemma nominal_default (H : Host) unitId :
  unitId <> 4%Z -> unitId <> 6%Z -> behavesAsNominal H unitId.
Proof.
  intros H4 H6. apply Z.eqb_neq in H4, H6.
  repeat split.
  - intros numPoints w. unfold generatePowerCurveData, bind.
    destruct (Date_now w) as [now w1]. apply mapM_ext. intros ws w'.
    unfold powerCurvePoint. rewrite H4, H6. reflexivity.
  - intro w. unfold initializeCorrelationFactors. rewrite H6. reflexivity.
  - intros currentTime factors w. unfold generateNextDataPoint. rewrite H6. reflexivity.
  - intros factor w. unfold generateDistributionData. rewrite H4, H6. reflexivity.
Qed.

(** C5: a unit id outside the registry raises nothing: the four generators
    return for it exactly what they return for the nominal unit 1 (same
    results, same draws consumed). *)
Theorem unknown_unit_defaults_to_nominal (H : Host) unitId :
  ~ registered unitId -> behavesAsNominal H unitId.
Proof.
  intro Hn. rewrite registered_iff in Hn. apply nominal_default; lia.
Qed.

Lemma unknown_unit_defaults_to_nominal_witness :
  ~ registered 7 /\ behavesAsNominal (constHost 0.5) 7.
Proof.
  assert (Hn : ~ registered 7) by (rewrite registered_iff; lia).
  split; [exact Hn|]. apply (unknown_unit_defaults_to_nominal (constHost 0.5) 7 Hn).
Defined.

(** C5, as stated: unit 7 is not registered, yet the sweep returns its 107
    samples and the factor initialiser its four factors, as for unit 1. *)
Lemma unit_7_defaults_silently :
  ~ registered 7 /\ behavesAsNominal (constHost 0.5) 7 /\
  List.length (fst (@generatePowerCurveData (constHost 0.5) 7 200 world0)) = 107%nat /\
  map id (fst (@initializeCorrelationFactors (constHost 0.5) 7 world0)) =
    ["pitch"; "rotor"; "generator"; "windSpeed"].
Proof.
  split; [rewrite registered_iff; lia|].
  split; [apply nominal_default; discriminate|].
  split; vm_compute; reflexivity.
Qed.

(** ** Distribution parameters *)

Lemma criticalDistribution `{Host} factor w :
  let d := fst (generateDistributionData factor 6 w) in
  let r := normalRange factor in
  referenceMean d = roundTo 100 (midpoint r) /\
  referenceStdDev d = roundTo 100 (width r / 6) /\
  actualMean d =
    roundTo 100 (if value factor <? midpoint r then midpoint r - width r * 0.4
                 else midpoint r + width r * 0.4) /\
  actualStdDev d = roundTo 100 (width r / 6 * 2.0).
Proof.
  unfold generateDistributionData.
  change (6 =? 6)%Z with true. cbv iota.
  unfold bind, ret. cbv beta iota.
  cbn [fst referenceMean referenceStdDev actualMean actualStdDev].
  repeat split; reflexivity.
Qed.

(** C6: for unit 6 the returned referenceMean, referenceStdDev, actualMean
    and actualStdDev are the midpoint, width / 6, midpoint -/+ 0.4 * width
    (minus when value < midpoint, plus otherwise) and 2.0 * width / 6, each
    rounded to two decimals; so actualStdDev is within 0.015 of twice the
    returned referenceStdDev and actualMean within 0.01 of the returned
    referenceMean -/+ 0.4 * width.  For the range [65, 75] and value 87
    they are 70, 1.67, 74 and 3.33. *)
Theorem critical_distribution_parameters :
  (forall (H : Host) (factor : CorrelationFactor) (w : World),
     let d := fst (generateDistributionData factor 6 w) in
     let r := normalRange factor in
     referenceMean d == roundTo 100 (midpoint r) /\
     referenceStdDev d == roundTo 100 (width r / 6) /\
     actualStdDev d == roundTo 100 (2.0 * (width r / 6)) /\
     Qabs (actualStdDev d - 2.0 * referenceStdDev d) <= 0.015 /\
     (value factor < midpoint r ->
        actualMean d == roundTo 100 (midpoint r - 0.4 * width r) /\
        Qabs (actualMean d - (referenceMean d - 0.4 * width r)) <= 0.01) /\
     (midpoint r <= value factor ->
        actualMean d == roundTo 100 (midpoint r + 0.4 * width r) /\
        Qabs (actualMean d - (referenceMean d + 0.4 * width r)) <= 0.01)) /\
  (forall (H : Host) (w : World),
     let d := fst (generateDistributionData generatorScenario 6 w) in
     referenceMean d == 70 /\ referenceStdDev d == 1.67 /\
     actualMean d == 74 /\ actualStdDev d == 3.33).
Proof.
  split.
  - intros H factor w d r.
    destruct (criticalDistribution factor w) as (Em & Es & Eam & Eas).
    fold d r in Em, Es, Eam, Eas. rewrite Em, Es, Eam, Eas.
    set (m := midpoint r). set (s := width r / 6). set (wd := width r).
    assert (Eas' : roundTo 100 (s * 2.0) == roundTo 100 (2.0 * s))
      by (apply roundTo_comp; ring).
    pose proof (roundTo100_error m) as Hm. pose proof (roundTo100_error s) as Hs.
    pose proof (roundTo100_error (2.0 * s)) as H2s.
    apply Qabs_Qle_condition in Hm, Hs, H2s.
    split; [reflexivity|]. split; [reflexivity|]. split; [exact Eas'|].
    split.
    { rewrite Eas'. apply Qabs_Qle_condition.
      revert Hs H2s. generalize (roundTo 100 s), (roundTo 100 (2.0 * s)). intros; lra. }
    split.
    + intro Hlt. apply Qlt_bool_iff in Hlt. rewrite Hlt.
      assert (E : roundTo 100 (m - wd * 0.4) == roundTo 100 (m - 0.4 * wd))
        by (apply roundTo_comp; ring).
      split; [exact E|]. rewrite E.
      pose proof (roundTo100_error (m - 0.4 * wd)) as Hx.
      apply Qabs_Qle_condition in Hx. apply Qabs_Qle_condition.
      revert Hm Hx. generalize (roundTo 100 m), (roundTo 100 (m - 0.4 * wd)). intros; lra.
    + intro Hle. apply Qlt_bool_false in Hle. rewrite Hle.
      assert (E : roundTo 100 (m + wd * 0.4) == roundTo 100 (m + 0.4 * wd))
        by (apply roundTo_comp; ring).
      split; [exact E|]. rewrite E.
      pose proof (roundTo100_error (m + 0.4 * wd)) as Hx.
      apply Qabs_Qle_condition in Hx. apply Qabs_Qle_condition.
      revert Hm Hx. generalize (roundTo 100 m), (roundTo 100 (m + 0.4 * wd)). intros; lra.
  - intros H w d.
    destruct (criticalDistribution generatorScenario w) as (Em & Es & Eam & Eas).
    fold d in Em, Es, Eam, Eas. rewrite Em, Es, Eam, Eas.
    repeat split; reflexivity.
Qed.

Lemma critical_distribution_parameters_witness :
  let d := fst (@generateDistributionData (constHost 0.5) generatorScenario 6 world0) in
  actualMean d == roundTo 100 (midpoint (normalRange generatorScenario)
                               + 0.4 * width (normalRange generatorScenario)) /\
  Qabs (actualMean d - (referenceMean d + 0.4 * width (normalRange generatorScenario))) <= 0.01.
Proof.
  destruct critical_distribution_parameters as [Hgen _].
  destruct (Hgen (constHost 0.5) generatorScenario world0) as (_ & _ & _ & _ & _ & Hplus).
  apply Hplus. vm_compute. discriminate.
Defined.

(** C6, as stated: for the range [65, 75] the returned referenceStdDev is
    1.67 and the returned actualStdDev is 3.33, not 2.0 * 1.67 = 3.34. *)
Lemma critical_stddev_not_double_after_rounding :
  let d := fst (@generateDistributionData (constHost 0.5) generatorScenario 6 world0) in
  referenceStdDev d == 1.67 /\ actualStdDev d == 3.33 /\
  2.0 * referenceStdDev d == 3.34 /\
  ~ actualStdDev d == 2.0 * referenceStdDev d.
Proof.
  pose proof (@criticalDistribution (constHost 0.5) generatorScenario world0)
    as (_ & Es & _ & Eas).
  intro d. fold d in Es, Eas. rewrite Es, Eas.
  repeat split; try reflexivity.
  intro Habs. vm_compute in Habs. discriminate Habs.
Qed.
